(** * stubz: interface extraction and stub synthesis

    A shallow embedding of [main.go]: the interface extractor
    ([findInterface]), the signature normalisation ([getFieldList],
    [getFieldNames], [getResultNames], [getTypeString]), the template helper
    [zip], the driver [generateStubCode] and [main] from the parsed command
    line on.

    Go slices are lists (a nil slice and an empty slice are both [[]]), a
    nilable [*ast.FieldList] is an [option], Go errors are carried by their
    message, and a Go panic is an explicit outcome. *)

From Stdlib Require Import List String Ascii Arith Lia Bool.
From Stdlib Require Import DecimalString DecimalNat Finite.
Import ListNotations.
Open Scope list_scope.
Open Scope string_scope.

Set Implicit Arguments.
Set Warnings "-register-all".

(** ** The fragment of [go/ast] the program inspects *)

(** Expression nodes that [getTypeString] has no case for.  [NilExpr] is the
    nil interface value ([ast.Field.Type] may be nil). *)
Inductive OtherKind : Type :=
| NilExpr | BadExpr | Ellipsis | BasicLit | FuncLit | CompositeLit
| ParenExpr | IndexExpr | IndexListExpr | SliceExpr | TypeAssertExpr
| CallExpr | UnaryExpr | BinaryExpr | KeyValueExpr | StructType | ChanType.

(** [ast.Field]: the declared names (each [*ast.Ident] by its [Name]) and the
    type.  It is polymorphic so that [Expr] can nest it. *)
Record FieldOf (E : Type) : Type := mkField {
  Names : list string;
  Type_ : E
}.

(** [ast.Expr], with the node kinds of the type switch in [getTypeString].
    [ArrayType] keeps its optional length, which the printer never reads.
    A [*ast.FieldList] is [None] when the pointer is nil, else its [List];
    the [Methods] of an interface type, which [findInterface] dereferences
    unguarded and the parser always sets, is kept as its [List]. *)
Inductive Expr : Type :=
| Ident (Name : string)
| SelectorExpr (X : Expr) (Sel : string)
| StarExpr (X : Expr)
| ArrayType (Len : option Expr) (Elt : Expr)
| MapType (Key Value : Expr)
| InterfaceType (Methods : list (FieldOf Expr))
| FuncType (Params Results : option (list (FieldOf Expr)))
| OtherExpr (kind : OtherKind).

Definition Field : Type := FieldOf Expr.
Definition FieldList : Type := option (list Field).

(** ** Library functions used with fixed arguments *)

(** [strings.Join(a, sep)]. *)
Fixpoint Join (a : list string) (sep : string) : string :=
  match a with
  | [] => ""
  | [x] => x
  | x :: rest => x ++ sep ++ Join rest sep
  end.

(** [joinl]: [strings.Join] with the arguments swapped. *)
Definition joinl (sep : string) (a : list string) : string := Join a sep.

(** [fmt.Sprintf("%d", i)] for a slice index. *)
Definition itoa (i : nat) : string := NilEmpty.string_of_uint (Nat.to_uint i).

(** [fmt.Sprintf("%T", expr)] on the remaining node kinds: the name of the
    dynamic type. *)
Definition goTypeName (k : OtherKind) : string :=
  match k with
  | NilExpr => "<nil>"
  | BadExpr => "*ast.BadExpr"
  | Ellipsis => "*ast.Ellipsis"
  | BasicLit => "*ast.BasicLit"
  | FuncLit => "*ast.FuncLit"
  | CompositeLit => "*ast.CompositeLit"
  | ParenExpr => "*ast.ParenExpr"
  | IndexExpr => "*ast.IndexExpr"
  | IndexListExpr => "*ast.IndexListExpr"
  | SliceExpr => "*ast.SliceExpr"
  | TypeAssertExpr => "*ast.TypeAssertExpr"
  | CallExpr => "*ast.CallExpr"
  | UnaryExpr => "*ast.UnaryExpr"
  | BinaryExpr => "*ast.BinaryExpr"
  | KeyValueExpr => "*ast.KeyValueExpr"
  | StructType => "*ast.StructType"
  | ChanType => "*ast.ChanType"
  end.

(** ** Signature normalisation *)

(** The body of [getFieldList], over the printer it calls: [getTypeString]
    and [getFieldList] are mutually recursive in the source, so the loop is
    first written over an arbitrary printer and the knot is tied below. *)
Section FieldListLoop.
Variable E : Type.
Variable typeString : E -> string.

(** One iteration of [for _, field := range fields.List]. *)
Definition getFieldList_step (params : list string) (field : FieldOf E)
  : list string :=
  let paramType := typeString (Type_ field) in
  match Names field with
  | [] => (params ++ [paramType])%list
  | names => (params ++ map (fun name => (name ++ " " ++ paramType)%string) names)%list
  end.

Definition getFieldList_loop : list (FieldOf E) -> list string -> list string :=
  fix loop (l : list (FieldOf E)) (params : list string) : list string :=
    match l with
    | [] => params
    | field :: rest => loop rest (getFieldList_step params field)
    end.

Definition getFieldList_with (fields : option (list (FieldOf E))) : list string :=
  match fields with
  | None => []
  | Some l => getFieldList_loop l []
  end.
End FieldListLoop.

Fixpoint getTypeString (expr : Expr) : string :=
  match expr with
  | Ident Name => Name
  | SelectorExpr X Sel => getTypeString X ++ "." ++ Sel
  | StarExpr X => "*" ++ getTypeString X
  | ArrayType _ Elt => "[]" ++ getTypeString Elt
  | MapType Key Value =>
      "map[" ++ getTypeString Key ++ "]" ++ getTypeString Value
  | InterfaceType _ => "interface{}"
  | FuncType Params Results =>
      "func(" ++ Join (getFieldList_with getTypeString Params) ", "
        ++ ") " ++ Join (getFieldList_with getTypeString Results) ", "
  | OtherExpr kind => goTypeName kind
  end.

Definition getFieldList (fields : FieldList) : list string :=
  getFieldList_with getTypeString fields.

(** One iteration of the loop of [getFieldNames]. *)
Definition getFieldNames_step (names : list string) (field : Field) : list string :=
  match Names field with
  | [] => (names ++ ["_"])%list
  | declared => (names ++ declared)%list
  end.

Fixpoint getFieldNames_loop (l : list Field) (names : list string) : list string :=
  match l with
  | [] => names
  | field :: rest => getFieldNames_loop rest (getFieldNames_step names field)
  end.

Definition getFieldNames (fields : FieldList) : list string :=
  match fields with
  | None => []
  | Some l => getFieldNames_loop l []
  end.

(** One iteration of [for i, field := range fields.List] in
    [getResultNames]: [i] is the index of the field in [fields.List]. *)
Definition getResultNames_step (i : nat) (names : list string) (field : Field)
  : list string :=
  match Names field with
  | [] => (names ++ [("R" ++ itoa i)%string])%list
  | declared => (names ++ declared)%list
  end.

Fixpoint getResultNames_loop (i : nat) (l : list Field) (names : list string)
  : list string :=
  match l with
  | [] => names
  | field :: rest =>
      getResultNames_loop (S i) rest (getResultNames_step i names field)
  end.

Definition getResultNames (fields : FieldList) : list string :=
  match fields with
  | None => []
  | Some l => getResultNames_loop 0 l []
  end.

(** ** The syntax trees [ast.Inspect] walks *)

(** A node of a parsed file as [ast.Inspect] sees it: an [*ast.TypeSpec]
    with [Name.Name] and [Type], or any other node; [children] are the nodes
    [ast.Walk] visits below it, in its order. *)
Inductive Node : Type :=
| TypeSpec (Name : string) (Type_ : Expr) (children : list Node)
| OtherNode (children : list Node).

(** [ast.Inspect(node, f)]: depth-first, [f] first on the node, then, when it
    answered true, the children in order and finally [f(nil)].  The state [S]
    is what the closure [f] captures and assigns. *)
Section Inspect.
Variable S : Type.
Variable f : option Node -> S -> bool * S.

Fixpoint Inspect (n : Node) (s : S) {struct n} : S :=
  let walkList :=
    fix walkList (l : list Node) (s : S) {struct l} : S :=
      match l with
      | [] => s
      | c :: rest => walkList rest (Inspect c s)
      end in
  let (descend, s1) := f (Some n) s in
  if descend then
    let s2 := match n with
              | TypeSpec _ _ children => walkList children s1
              | OtherNode children => walkList children s1
              end in
    snd (f None s2)
  else s1.

Fixpoint InspectList (l : list Node) (s : S) : S :=
  match l with
  | [] => s
  | c :: rest => InspectList rest (Inspect c s)
  end.
End Inspect.

(** [packages.Package]: the fields [findInterface] reads, and the errors
    [packages.PrintErrors] counts. *)
Record Package : Type := mkPackage {
  PkgName : string;
  Syntax : list Node;
  Errors : list string
}.

(** [packages.PrintErrors(pkgs)]: the number of errors it printed. *)
Definition PrintErrors (pkgs : list Package) : nat :=
  fold_left (fun n pkg => n + List.length (Errors pkg)) pkgs 0.

(** ** [findInterface] *)

(** The closure passed to [ast.Inspect]; the state is [interfaceMethods]. *)
Definition visit (interfaceName : string) (n : option Node)
    (interfaceMethods : list Field) : bool * list Field :=
  match n with
  | Some (TypeSpec name ty _) =>
      if String.eqb name interfaceName then
        match ty with
        | InterfaceType methods => (true, methods)
        | _ => (true, interfaceMethods)
        end
      else (true, interfaceMethods)
  | _ => (true, interfaceMethods)
  end.

(** [for _, file := range pkg.Syntax]. *)
Definition inspectFiles (interfaceName : string) (files : list Node)
    (interfaceMethods : list Field) : list Field :=
  fold_left (fun ms file => Inspect (visit interfaceName) file ms)
            files interfaceMethods.

(** [for _, pkg := range pkgs]; the state is
    [(interfaceMethods, packageName)]. *)
Definition inspectPackages (interfaceName : string) (pkgs : list Package)
    (st : list Field * string) : list Field * string :=
  fold_left (fun st pkg =>
               (inspectFiles interfaceName (Syntax pkg) (fst st), PkgName pkg))
            pkgs st.

Section FindInterface.
(** [packages.Load(cfg, ".")] with [cfg.Dir = inputDir]: the packages and
    the error. *)
Variable Load : string -> list Package * option string.

(** The Go result [([]*ast.Field, string, error)]. *)
Definition findInterface (inputDir interfaceName : string)
  : list Field * string * option string :=
  let (pkgs, err) := Load inputDir in
  match err with
  | Some e => ([], "", Some ("load: " ++ e))
  | None =>
      if Nat.ltb 0 (PrintErrors pkgs) then
        ([], "", Some "packages contain errors")
      else
        let (interfaceMethods, packageName) :=
          inspectPackages interfaceName pkgs ([], "") in
        (interfaceMethods, packageName, None)
  end.
End FindInterface.

(** ** Template data and helpers *)

Record methodData : Type := mkMethodData {
  Name : string;
  Params : list string;
  ParamNames : list string;
  Results : list string;
  ResultNames : list string
}.

(** A Go call either returns or panics. *)
Inductive outcome (A : Type) : Type :=
| Return (a : A)
| Panic (msg : string).
Arguments Panic {A} msg.

Section Zip.
(** [fmt.Sprintf(fmtStr, x, y)] on two strings. *)
Variable Sprintf2 : string -> string -> string -> string.

(** [for i := range a]: [a[i]] and [b[i]] are read in step; reading past
    the end of [b] is Go's index panic. *)
Fixpoint zip_loop (fmtStr : string) (a b zipped : list string)
  : outcome (list string) :=
  match a with
  | [] => Return zipped
  | x :: a' =>
      match b with
      | [] => Panic "index out of range"
      | y :: b' => zip_loop fmtStr a' b' (zipped ++ [Sprintf2 fmtStr x y])%list
      end
  end.

Definition zip (a b : list string) (fmtStr : string) : outcome (list string) :=
  if negb (Nat.eqb (List.length a) (List.length b)) then Panic "unequal length"
  else zip_loop fmtStr a b [].
End Zip.

(** [template.FuncMap] as built in [generateStubCode]. *)
Record FuncMap : Type := mkFuncMap {
  fm_join : list string -> string -> string;
  fm_zip : list string -> list string -> string -> outcome (list string);
  fm_joinl : string -> list string -> string
}.

(** The anonymous struct handed to [tmpl.Execute]. *)
Record TemplateData : Type := mkTemplateData {
  PackageName : string;
  InterfaceName : string;
  StubName : string;
  Methods : list methodData
}.

(** ** [generateStubCode] *)

(** [for _, method := range methods]: fields without a name are skipped, the
    type assertion of [method.Type] to [*ast.FuncType] panics on any other
    node. *)
Fixpoint collectMethods (methods : list Field) (methodsData : list methodData)
  : outcome (list methodData) :=
  match methods with
  | [] => Return methodsData
  | method :: rest =>
      match Names method with
      | [] => collectMethods rest methodsData
      | methodName :: _ =>
          match Type_ method with
          | FuncType fParams fResults =>
              let params := getFieldList fParams in
              let paramNames := getFieldNames fParams in
              let results := getFieldList fResults in
              let resultNames := getResultNames fResults in
              collectMethods rest
                (methodsData ++ [mkMethodData methodName params paramNames
                                              results resultNames])%list
          | _ => Panic "interface conversion: ast.Expr is not *ast.FuncType"
          end
      end
  end.

(** The libraries [generateStubCode] calls and the embedded template text:
    [text/template] ([Parse], [Execute]: the text written to the buffer and
    the error), [go/parser] and [go/format] (the text written and the
    error). *)
Record GoLibs (Template File : Type) : Type := mkGoLibs {
  stubTemplate : string;
  ParseTemplate : FuncMap -> string -> Template + string;
  Execute : Template -> TemplateData -> string * option string;
  ParseFile : string -> File + string;
  FormatNode : File -> string * option string
}.

Section GenerateStubCode.
Variable Sprintf2 : string -> string -> string -> string.
Variables Template File : Type.
Variable libs : GoLibs Template File.

(** The Go result [(string, error)], or a panic.  The debug line printed
    to standard output is not part of the result. *)
Definition generateStubCode (interfaceName : string) (methods : list Field)
    (packageName : string) (disableFormatting : bool)
  : outcome (string * option string) :=
  let stubName := "Stub" ++ interfaceName in
  let funcMap := mkFuncMap Join (zip Sprintf2) joinl in
  match ParseTemplate libs funcMap (stubTemplate libs) with
  | inr e => Panic e
  | inl tmpl =>
      match collectMethods methods [] with
      | Panic msg => Panic msg
      | Return methodsData =>
          let (buf, err) :=
            Execute libs tmpl
              (mkTemplateData packageName interfaceName stubName methodsData) in
          match err with
          | Some e => Return ("", Some ("error generating stub: " ++ e))
          | None =>
              if negb disableFormatting then
                match ParseFile libs buf with
                | inr e =>
                    Return ("", Some ("error parsing generated code: " ++ e))
                | inl node =>
                    let (formattedBuf, err) := FormatNode libs node in
                    match err with
                    | Some e =>
                        Return ("", Some ("error formatting generated code: " ++ e))
                    | None => Return (formattedBuf, None)
                    end
                end
              else Return (buf, None)
          end
      end
  end.
End GenerateStubCode.

(** ** Vocabulary of the statements *)

(** The record [collectMethods] appends for a named method. *)
Definition normalised (md : methodData) : Prop :=
  exists fParams fResults,
    Params md = getFieldList fParams
    /\ ParamNames md = getFieldNames fParams
    /\ Results md = getFieldList fResults
    /\ ResultNames md = getResultNames fResults.

(** A method field is usable when it is embedded (no name, skipped) or its
    type is a function type, as the parser builds every named method. *)
Definition methodField (method : Field) : bool :=
  match Names method, Type_ method with
  | [], _ => true
  | _ :: _, FuncType _ _ => true
  | _ :: _, _ => false
  end.

(** The name of a directly declared method; nothing for an embedded entry. *)
Definition declaredName (method : Field) : list string :=
  match Names method with
  | [] => []
  | methodName :: _ => [methodName]
  end.

(** The nodes [ast.Walk] visits below a node. *)
Definition nodeChildren (n : Node) : list Node :=
  match n with
  | TypeSpec _ _ children => children
  | OtherNode children => children
  end.

(** Induction over a syntax tree, with the property known of all children. *)
Section NodeInduction.
Variable P : Node -> Prop.
Hypothesis P_TypeSpec :
  forall name ty children, Forall P children -> P (TypeSpec name ty children).
Hypothesis P_OtherNode :
  forall children, Forall P children -> P (OtherNode children).

Fixpoint Node_children_ind (n : Node) : P n :=
  let all :=
    fix all (l : list Node) : Forall P l :=
      match l with
      | [] => Forall_nil P
      | c :: rest => Forall_cons c (Node_children_ind c) (all rest)
      end in
  match n with
  | TypeSpec name ty children => P_TypeSpec name ty (all children)
  | OtherNode children => P_OtherNode (all children)
  end.
End NodeInduction.

(** The method list of a node that is a type declaration named
    [interfaceName] with an interface type; nothing for any other node. *)
Definition matchingDecl (interfaceName : string) (n : Node) : list (list Field) :=
  match n with
  | TypeSpec name (InterfaceType methods) _ =>
      if String.eqb name interfaceName then [methods] else []
  | _ => []
  end.

(** The matching declarations below a node, in traversal order (a node
    before its children, children left to right). *)
Fixpoint declsOfNode (interfaceName : string) (n : Node) {struct n}
  : list (list Field) :=
  let below :=
    fix below (l : list Node) : list (list Field) :=
      match l with
      | [] => []
      | c :: rest => (declsOfNode interfaceName c ++ below rest)%list
      end in
  match n with
  | TypeSpec _ _ children => (matchingDecl interfaceName n ++ below children)%list
  | OtherNode children => below children
  end.

(** The matching declarations of the loaded packages: packages in order,
    files in order, each file in traversal order. *)
Definition matchingDecls (interfaceName : string) (pkgs : list Package)
  : list (list Field) :=
  flat_map (fun pkg => flat_map (declsOfNode interfaceName) (Syntax pkg)) pkgs.

(** Two installations of the libraries that answer alike. *)
Definition libsAgree (Template File : Type) (l1 l2 : GoLibs Template File) : Prop :=
  stubTemplate l1 = stubTemplate l2
  /\ (forall fm text, ParseTemplate l1 fm text = ParseTemplate l2 fm text)
  /\ (forall tmpl data, Execute l1 tmpl data = Execute l2 tmpl data)
  /\ (forall text, ParseFile l1 text = ParseFile l2 text)
  /\ (forall node, FormatNode l1 node = FormatNode l2 node).

(** ** Sample inputs *)

Definition int_ : Expr := Ident "int".
Definition string_ : Expr := Ident "string".
Definition error_ : Expr := Ident "error".

(** The interface of the reference test:
    [Thing() error], [ThingWithParam(x int) error] and
    [ThingWithParams(a int, b string) (string, error)]. *)
Definition thingerMethods : list Field :=
  [ mkField ["Thing"] (FuncType (Some []) (Some [mkField [] error_]));
    mkField ["ThingWithParam"]
      (FuncType (Some [mkField ["x"] int_]) (Some [mkField [] error_]));
    mkField ["ThingWithParams"]
      (FuncType (Some [mkField ["a"] int_; mkField ["b"] string_])
                (Some [mkField [] string_; mkField [] error_])) ].

Definition thingerData : list methodData :=
  [ mkMethodData "Thing" [] [] ["error"] ["R0"];
    mkMethodData "ThingWithParam" ["x int"] ["x"] ["error"] ["R0"];
    mkMethodData "ThingWithParams" ["a int"; "b string"] ["a"; "b"]
                 ["string"; "error"] ["R0"; "R1"] ].

(** The result list [(a, b int, int)]. *)
Definition mixedResults : list Field :=
  [ mkField ["a"; "b"] int_; mkField [] int_ ].

(** A file with [type Thinger interface { Thing() error }] at package level
    and [type Thinger interface { Other() }] inside a function body. *)
Definition outerThinger : list Field :=
  [ mkField ["Thing"] (FuncType (Some []) (Some [mkField [] error_])) ].
Definition innerThinger : list Field :=
  [ mkField ["Other"] (FuncType (Some []) None) ].

Definition dupFile : Node :=
  OtherNode
    [ OtherNode [];
      OtherNode [TypeSpec "Thinger" (InterfaceType outerThinger)
                          [OtherNode []; OtherNode [OtherNode []]]];
      OtherNode
        [ OtherNode [];
          OtherNode [];
          OtherNode
            [OtherNode
               [OtherNode
                  [TypeSpec "Thinger" (InterfaceType innerThinger)
                            [OtherNode []; OtherNode [OtherNode []]]]]]] ].

Definition dupPackage : Package := mkPackage "ref" [dupFile] [].
Definition dupLoad (inputDir : string) : list Package * option string :=
  ([dupPackage], None).

(** A package whose only [Thinger] is [type Thinger struct{}]. *)
Definition structFile : Node :=
  OtherNode
    [ OtherNode [];
      OtherNode [TypeSpec "Thinger" (OtherExpr StructType)
                          [OtherNode []; OtherNode [OtherNode []]]] ].

Definition structPackage : Package := mkPackage "ref" [structFile] [].
Definition structLoad (inputDir : string) : list Package * option string :=
  ([structPackage], None).

(** Stand-ins for the libraries: a formatter of two strings that ignores
    its format, a template that renders an unclosed declaration, a parser
    that rejects it and a printer that is never reached. *)
Definition sampleSprintf2 (fmtStr x y : string) : string := x ++ " " ++ y.

Definition sampleLibs : GoLibs unit unit :=
  mkGoLibs "{{.PackageName}}"
           (fun _ _ => inl tt)
           (fun _ data =>
              ("package " ++ PackageName data ++ "; type "
                 ++ StubName data ++ " struct{", None))
           (fun _ => inr "expected '}', found 'EOF'")
           (fun _ => ("", None)).

(** The same answers from a second installation, written differently. *)
Definition sampleLibs' : GoLibs unit unit :=
  mkGoLibs "{{.PackageName}}"
           (fun _ _ => inl tt)
           (fun _ data =>
              (("package " ++ PackageName data) ++ "; type "
                 ++ StubName data ++ " struct{", None))
           (fun _ => inr "expected '}', found 'EOF'")
           (fun node => match node with tt => ("", None) end).

(** ** [prettyPrint] and [main] *)

(** The line feed that [Println] and the [\n] of a format append. *)
Definition nl : string := String (ascii_of_nat 10) EmptyString.

(** What a run of [main] does to the outside, in order: text written to
    standard error and standard output, a call of [os.WriteFile],
    [os.Exit], and a panic that reaches the top. *)
Inductive Event : Type :=
| Stderr (text : string)
| Stdout (text : string)
| WriteFile (name data : string) (perm : nat)
| Exit (code : nat)
| Crash (msg : string).

(** The command line after [flag.Parse]: the two flags, [flag.Args()] and
    [os.Args[0]]. *)
Record Flags : Type := mkFlags {
  outputFile : string;
  disableFormatting : bool;
  Args : list string;
  Arg0 : string
}.

Section Main.
Variable Load : string -> list Package * option string.
(** All that [packages.PrintErrors] writes to standard error. *)
Variable PrintErrorsText : list Package -> string.
Variable Sprintf2 : string -> string -> string -> string.
Variables Template File : Type.
Variable libs : GoLibs Template File.
(** [json.MarshalIndent(i, "", "\t")] on the method records, as a string;
    [prettyPrint] drops its error. *)
Variable MarshalIndent : list methodData -> string.
(** The error of [os.WriteFile(name, data, 0644)]. *)
Variable WriteFileErr : string -> string -> option string.

Definition prettyPrint (i : list methodData) : string := MarshalIndent i.

(** What [findInterface] writes: the diagnostics of [PrintErrors], called
    once the load itself has not failed; one event carries all of them,
    and its text is empty when there is none. *)
Definition findInterface_events (inputDir : string) : list Event :=
  let (pkgs, err) := Load inputDir in
  match err with
  | Some _ => []
  | None => [Stderr (PrintErrorsText pkgs)]
  end.

(** What [generateStubCode] writes: the debug line
    [fmt.Println(prettyPrint(methodsData))], reached once the template has
    parsed and the method loop has returned. *)
Definition generateStubCode_events (methods : list Field) : list Event :=
  match ParseTemplate libs (mkFuncMap Join (zip Sprintf2) joinl)
                      (stubTemplate libs) with
  | inr _ => []
  | inl _ =>
      match collectMethods methods [] with
      | Panic _ => []
      | Return methodsData => [Stdout (prettyPrint methodsData ++ nl)]
      end
  end.

(** [main], from [flag.NArg() != 2] on.  Every [os.Exit(1)] ends the run;
    the file mode [0644] is 420. *)
Definition main (fl : Flags) : list Event :=
  match Args fl with
  | [inputDir; interfaceName] =>
      let '(interfaceMethods, packageName, err) :=
        findInterface Load inputDir interfaceName in
      (findInterface_events inputDir ++
       match err with
       | Some e => [Stderr ("Error finding interface: " ++ e ++ nl); Exit 1]
       | None =>
           if Nat.eqb (List.length interfaceMethods) 0 then
             [Stderr ("Interface " ++ interfaceName ++ " not found" ++ nl);
              Exit 1]
           else
             (generateStubCode_events interfaceMethods ++
              match generateStubCode Sprintf2 libs interfaceName
                      interfaceMethods packageName (disableFormatting fl) with
              | Panic msg => [Crash msg]
              | Return (stubCode, Some e) =>
                  [Stderr ("Error generating stub: " ++ e ++ nl); Exit 1]
              | Return (stubCode, None) =>
                  if String.eqb (outputFile fl) "" then
                    [Stdout (stubCode ++ nl)]
                  else
                    match WriteFileErr (outputFile fl) stubCode with
                    | Some e =>
                        [WriteFile (outputFile fl) stubCode 420;
                         Stderr ("Error writing output file: " ++ e ++ nl);
                         Exit 1]
                    | None =>
                        [WriteFile (outputFile fl) stubCode 420;
                         Stdout ("Stub generated in " ++ outputFile fl ++ nl)]
                    end
              end)%list
       end)%list
  | _ =>
      [Stderr ("Usage: " ++ Arg0 fl
                 ++ " [-no-fmt] -o <output.go> <input_directory> <interface>"
                 ++ nl);
       Exit 1]
  end.
End Main.

(** ** More vocabulary of the statements *)

(** Induction over a type expression, with the property known of the type
    of every field below it. *)
Section ExprInduction.
Variable P : Expr -> Prop.

Definition fieldsAll (fields : option (list Field)) : Prop :=
  match fields with
  | None => True
  | Some l => Forall (fun field => P (Type_ field)) l
  end.

Hypothesis P_Ident : forall name, P (Ident name).
Hypothesis P_SelectorExpr : forall X Sel, P X -> P (SelectorExpr X Sel).
Hypothesis P_StarExpr : forall X, P X -> P (StarExpr X).
Hypothesis P_ArrayType : forall Len Elt, P Elt -> P (ArrayType Len Elt).
Hypothesis P_MapType : forall Key Value, P Key -> P Value -> P (MapType Key Value).
Hypothesis P_InterfaceType : forall methods, P (InterfaceType methods).
Hypothesis P_FuncType :
  forall params results,
    fieldsAll params -> fieldsAll results -> P (FuncType params results).
Hypothesis P_OtherExpr : forall kind, P (OtherExpr kind).

Fixpoint Expr_fields_ind (e : Expr) : P e :=
  let all :=
    fix all (l : list Field) : Forall (fun field => P (Type_ field)) l :=
      match l with
      | [] => Forall_nil _
      | field :: rest =>
          Forall_cons field (Expr_fields_ind (Type_ field)) (all rest)
      end in
  let opt := fun fields : option (list Field) =>
    match fields return fieldsAll fields with
    | None => I
    | Some l => all l
    end in
  match e with
  | Ident name => @P_Ident name
  | SelectorExpr X Sel => @P_SelectorExpr X Sel (Expr_fields_ind X)
  | StarExpr X => @P_StarExpr X (Expr_fields_ind X)
  | ArrayType Len Elt => @P_ArrayType Len Elt (Expr_fields_ind Elt)
  | MapType Key Value =>
      @P_MapType Key Value (Expr_fields_ind Key) (Expr_fields_ind Value)
  | InterfaceType methods => @P_InterfaceType methods
  | FuncType params results =>
      @P_FuncType params results (opt params) (opt results)
  | OtherExpr kind => @P_OtherExpr kind
  end.
End ExprInduction.

(** A type expression without what [getTypeString] never reads: every array
    length and the method list of every interface type, at any depth. *)
Fixpoint eraseUnread (e : Expr) : Expr :=
  let fields := fun l : list Field =>
    map (fun field => mkField (Names field) (eraseUnread (Type_ field))) l in
  match e with
  | Ident name => Ident name
  | SelectorExpr X Sel => SelectorExpr (eraseUnread X) Sel
  | StarExpr X => StarExpr (eraseUnread X)
  | ArrayType _ Elt => ArrayType None (eraseUnread Elt)
  | MapType Key Value => MapType (eraseUnread Key) (eraseUnread Value)
  | InterfaceType _ => InterfaceType []
  | FuncType params results =>
      FuncType (option_map fields params) (option_map fields results)
  | OtherExpr kind => OtherExpr kind
  end.

(** The nodes [ast.Inspect] reaches from a node, in the order of the walk. *)
Fixpoint subnodes (n : Node) {struct n} : list Node :=
  let below :=
    fix below (l : list Node) : list Node :=
      match l with
      | [] => []
      | c :: rest => (subnodes c ++ below rest)%list
      end in
  match n with
  | TypeSpec _ _ children => n :: below children
  | OtherNode children => n :: below children
  end.

(** A method field with a name, as opposed to an embedded interface. *)
Definition named (method : Field) : bool :=
  match Names method with
  | [] => false
  | _ :: _ => true
  end.

(** [md] is the record of the named method [method]: its first name and the
    four lists normalised from its own function type. *)
Definition recordOf (method : Field) (md : methodData) : Prop :=
  exists methodName others fParams fResults,
    Names method = methodName :: others
    /\ Type_ method = FuncType fParams fResults
    /\ md = mkMethodData methodName (getFieldList fParams)
              (getFieldNames fParams) (getFieldList fResults)
              (getResultNames fResults).

(** The number of entries a field contributes to each normalised list. *)
Definition entriesOf (field : Field) : nat := Nat.max 1 (List.length (Names field)).

(** More stand-ins: a template whose execution fails after writing part of
    its output, a run of [main] and its surroundings, and a package whose
    [Thinger] is [type Thinger interface{}]. *)
Definition renderFailLibs : GoLibs unit unit :=
  mkGoLibs "{{.PackageName}}"
           (fun _ _ => inl tt)
           (fun _ data =>
              ("package " ++ PackageName data, Some "template: stub: no such field"))
           (fun _ => inl tt)
           (fun _ => ("", None)).

Definition samplePrintErrorsText (pkgs : list Package) : string :=
  concat "" (flat_map Errors pkgs).
Definition sampleMarshalIndent (i : list methodData) : string := "[]".
Definition sampleWriteFileErr (name data : string) : option string := None.

Definition sampleFlags : Flags :=
  mkFlags "stub.go" true ["."; "Thinger"] "stubz".

Definition emptyInterfaceFile : Node :=
  OtherNode
    [ OtherNode [];
      OtherNode [TypeSpec "Thinger" (InterfaceType [])
                          [OtherNode []; OtherNode [OtherNode []]]] ].

Definition emptyInterfacePackage : Package :=
  mkPackage "ref" [emptyInterfaceFile] [].
Definition emptyInterfaceLoad (inputDir : string)
  : list Package * option string :=
  ([emptyInterfacePackage], None).

(** * Properties *)

(** ** The loops of normalisation append to their accumulator *)

Lemma getFieldList_loop_acc (l : list Field) (acc : list string) :
  getFieldList_loop getTypeString l acc
  = (acc ++ getFieldList_loop getTypeString l [])%list.
Proof.
  revert acc; induction l as [|field rest IH]; intros acc; simpl.
  - now rewrite app_nil_r.
  - rewrite IH, (IH (getFieldList_step _ [] field)).
    unfold getFieldList_step; destruct (Names field);
      simpl; now rewrite <- app_assoc.
Qed.

Lemma getFieldNames_loop_acc (l : list Field) (acc : list string) :
  getFieldNames_loop l acc = (acc ++ getFieldNames_loop l [])%list.
Proof.
  revert acc; induction l as [|field rest IH]; intros acc; simpl.
  - now rewrite app_nil_r.
  - rewrite IH, (IH (getFieldNames_step [] field)).
    unfold getFieldNames_step; destruct (Names field);
      simpl; now rewrite <- app_assoc.
Qed.

Lemma getResultNames_loop_acc (l : list Field) (i : nat) (acc : list string) :
  getResultNames_loop i l acc = (acc ++ getResultNames_loop i l [])%list.
Proof.
  revert i acc; induction l as [|field rest IH]; intros i acc; simpl.
  - now rewrite app_nil_r.
  - rewrite IH, (IH _ (getResultNames_step i [] field)).
    unfold getResultNames_step; destruct (Names field);
      simpl; now rewrite <- app_assoc.
Qed.

(** What one field contributes to each of the three lists. *)
Lemma getFieldList_cons (field : Field) (rest : list Field) :
  getFieldList (Some (field :: rest))
  = (getFieldList_step getTypeString [] field ++ getFieldList (Some rest))%list.
Proof. unfold getFieldList; simpl. apply getFieldList_loop_acc. Qed.

Lemma getFieldNames_cons (field : Field) (rest : list Field) :
  getFieldNames (Some (field :: rest))
  = (getFieldNames_step [] field ++ getFieldNames (Some rest))%list.
Proof. simpl. apply getFieldNames_loop_acc. Qed.

Lemma getResultNames_loop_cons (i : nat) (field : Field) (rest : list Field) :
  getResultNames_loop i (field :: rest) []
  = (getResultNames_step i [] field ++ getResultNames_loop (S i) rest [])%list.
Proof. simpl. apply getResultNames_loop_acc. Qed.

Lemma getFieldList_app (pre post : list Field) :
  getFieldList (Some (pre ++ post)%list)
  = (getFieldList (Some pre) ++ getFieldList (Some post))%list.
Proof.
  induction pre as [|field pre IH]; [reflexivity|].
  rewrite <- app_comm_cons, !getFieldList_cons, IH. now rewrite app_assoc.
Qed.

Lemma getFieldNames_app (pre post : list Field) :
  getFieldNames (Some (pre ++ post)%list)
  = (getFieldNames (Some pre) ++ getFieldNames (Some post))%list.
Proof.
  induction pre as [|field pre IH]; [reflexivity|].
  rewrite <- app_comm_cons, !getFieldNames_cons, IH. now rewrite app_assoc.
Qed.

Lemma getResultNames_loop_app (i : nat) (pre post : list Field) :
  getResultNames_loop i (pre ++ post)%list []
  = (getResultNames_loop i pre []
       ++ getResultNames_loop (i + List.length pre) post [])%list.
Proof.
  revert i; induction pre as [|field pre IH]; intros i.
  - simpl. now rewrite Nat.add_0_r.
  - rewrite <- app_comm_cons, !getResultNames_loop_cons, IH.
    simpl List.length. rewrite <- app_assoc. do 3 f_equal. lia.
Qed.

(** The three loops emit the same number of entries for each field. *)
Lemma step_lengths (i : nat) (field : Field) :
  List.length (getFieldList_step getTypeString [] field)
  = List.length (getFieldNames_step [] field)
  /\ List.length (getFieldList_step getTypeString [] field)
     = List.length (getResultNames_step i [] field).
Proof.
  unfold getFieldList_step, getFieldNames_step, getResultNames_step.
  destruct (Names field); simpl; [now split|].
  now rewrite length_map.
Qed.

Lemma getFieldList_getFieldNames_length (fields : FieldList) :
  List.length (getFieldList fields) = List.length (getFieldNames fields).
Proof.
  destruct fields as [l|]; [|reflexivity].
  induction l as [|field rest IH]; [reflexivity|].
  rewrite getFieldList_cons, getFieldNames_cons, !length_app, IH.
  now rewrite (proj1 (step_lengths 0 field)).
Qed.

Lemma getFieldList_loop_getResultNames_loop_length (i : nat) (l : list Field) :
  List.length (getFieldList (Some l))
  = List.length (getResultNames_loop i l []).
Proof.
  revert i; induction l as [|field rest IH]; intros i; [reflexivity|].
  rewrite getFieldList_cons, getResultNames_loop_cons, !length_app, (IH (S i)).
  now rewrite (proj2 (step_lengths i field)).
Qed.

Lemma getFieldList_getResultNames_length (fields : FieldList) :
  List.length (getFieldList fields) = List.length (getResultNames fields).
Proof.
  destruct fields as [l|]; [|reflexivity].
  apply getFieldList_loop_getResultNames_loop_length.
Qed.

(** ** The method loop *)

Lemma collectMethods_Forall (P : methodData -> Prop) :
  (forall md, normalised md -> P md) ->
  forall methods acc mds,
    Forall P acc ->
    collectMethods methods acc = Return mds ->
    Forall P mds.
Proof.
  intros HP methods; induction methods as [|method rest IH];
    intros acc mds Hacc Hrun; simpl in Hrun.
  - now inversion Hrun; subst.
  - destruct (Names method) as [|methodName others]; [now apply (IH acc)|].
    destruct (Type_ method) as [| | | | | |fParams fResults|];
      try discriminate.
    eapply IH; [|exact Hrun].
    apply Forall_app; split; [assumption|].
    constructor; [|constructor].
    apply HP. now exists fParams, fResults.
Qed.

Lemma collectMethods_names (methods : list Field) :
  forallb methodField methods = true ->
  forall acc, exists mds,
    collectMethods methods acc = Return mds
    /\ map Name mds = (map Name acc ++ flat_map declaredName methods)%list.
Proof.
  induction methods as [|method rest IH]; intros Hok acc; simpl.
  - exists acc. now rewrite app_nil_r.
  - simpl in Hok. apply andb_prop in Hok as [Hm Hrest].
    unfold methodField, declaredName in *.
    destruct (Names method) as [|methodName others]; [now apply IH|].
    destruct (Type_ method) as [| | | | | |fParams fResults|];
      try discriminate.
    destruct (IH Hrest
                (acc ++ [mkMethodData methodName (getFieldList fParams)
                           (getFieldNames fParams) (getFieldList fResults)
                           (getResultNames fResults)])%list)
      as [mds [Hrun Hnames]].
    exists mds; split; [exact Hrun|].
    rewrite Hnames, map_app. simpl. now rewrite <- app_assoc.
Qed.

(** ** [zip] *)

Lemma zip_loop_combine (Sprintf2 : string -> string -> string -> string)
    (fmtStr : string) (a b acc : list string) :
  List.length a = List.length b ->
  zip_loop Sprintf2 fmtStr a b acc
  = Return (acc ++ map (fun xy => Sprintf2 fmtStr (fst xy) (snd xy))
                       (combine a b))%list.
Proof.
  revert b acc; induction a as [|x a IH]; intros [|y b] acc Hlen;
    simpl in *; try discriminate.
  - now rewrite app_nil_r.
  - rewrite IH by congruence. now rewrite <- app_assoc.
Qed.

Lemma zip_equal_length (Sprintf2 : string -> string -> string -> string)
    (fmtStr : string) (a b : list string) :
  List.length a = List.length b ->
  zip Sprintf2 a b fmtStr
  = Return (map (fun xy => Sprintf2 fmtStr (fst xy) (snd xy)) (combine a b)).
Proof.
  intros Hlen. unfold zip.
  rewrite (proj2 (Nat.eqb_eq _ _) Hlen). simpl.
  now rewrite zip_loop_combine.
Qed.

Lemma zip_unequal_length (Sprintf2 : string -> string -> string -> string)
    (fmtStr : string) (a b : list string) :
  List.length a <> List.length b ->
  zip Sprintf2 a b fmtStr = Panic "unequal length".
Proof.
  intros Hlen. unfold zip.
  now rewrite (proj2 (Nat.eqb_neq _ _) Hlen).
Qed.

(** ** The traversal of [findInterface] *)

Lemma Inspect_unfold (S : Type) (f : option Node -> S -> bool * S)
    (n : Node) (s : S) :
  Inspect f n s
  = let (descend, s1) := f (Some n) s in
    if descend then snd (f None (InspectList f (nodeChildren n) s1)) else s1.
Proof. destruct n; reflexivity. Qed.

Lemma declsOfNode_unfold (interfaceName : string) (n : Node) :
  declsOfNode interfaceName n
  = (matchingDecl interfaceName n
       ++ flat_map (declsOfNode interfaceName) (nodeChildren n))%list.
Proof. destruct n; reflexivity. Qed.

Lemma last_cons_default (A : Type) (l : list A) (x d d' : A) :
  last (x :: l) d = last (x :: l) d'.
Proof.
  revert x; induction l as [|y l IH]; intros x; [reflexivity|].
  change (last (y :: l) d = last (y :: l) d'). apply IH.
Qed.

Lemma last_app_default (A : Type) (l1 l2 : list A) (d : A) :
  last (l1 ++ l2) d = last l2 (last l1 d).
Proof.
  induction l1 as [|x l1 IH]; [reflexivity|].
  destruct l1 as [|y l1].
  - destruct l2 as [|z l2]; [reflexivity|].
    change (last (z :: l2) d = last (z :: l2) x). apply last_cons_default.
  - change (last ((y :: l1) ++ l2) d = last l2 (last (y :: l1) d)).
    exact IH.
Qed.

Lemma visit_node (interfaceName : string) (n : Node) (ms : list Field) :
  visit interfaceName (Some n) ms = (true, last (matchingDecl interfaceName n) ms).
Proof.
  destruct n as [name ty children|children]; simpl; [|reflexivity].
  destruct ty; destruct (String.eqb name interfaceName); reflexivity.
Qed.

Lemma InspectList_last (interfaceName : string) (l : list Node) :
  Forall (fun c => forall ms, Inspect (visit interfaceName) c ms
                              = last (declsOfNode interfaceName c) ms) l ->
  forall ms, InspectList (visit interfaceName) l ms
             = last (flat_map (declsOfNode interfaceName) l) ms.
Proof.
  induction 1 as [|c rest Hc _ IH]; intros ms; simpl; [reflexivity|].
  now rewrite last_app_default, Hc, IH.
Qed.

(** Every match overwrites [interfaceMethods] and the walk goes on, so a
    walk leaves the method list of the last match, or the list it began
    with. *)
Lemma Inspect_visit_last (interfaceName : string) (n : Node) :
  forall ms, Inspect (visit interfaceName) n ms
             = last (declsOfNode interfaceName n) ms.
Proof.
  induction n as [name ty children IH|children IH] using Node_children_ind;
    intros ms; rewrite Inspect_unfold, declsOfNode_unfold, visit_node;
    cbn iota; simpl snd;
    now rewrite last_app_default, (InspectList_last _ IH).
Qed.

Lemma inspectFiles_last (interfaceName : string) (files : list Node)
    (ms : list Field) :
  inspectFiles interfaceName files ms
  = last (flat_map (declsOfNode interfaceName) files) ms.
Proof.
  unfold inspectFiles; revert ms.
  induction files as [|file rest IH]; intros ms; simpl; [reflexivity|].
  now rewrite IH, Inspect_visit_last, last_app_default.
Qed.

Lemma inspectPackages_last (interfaceName : string) (pkgs : list Package)
    (st : list Field * string) :
  inspectPackages interfaceName pkgs st
  = (last (matchingDecls interfaceName pkgs) (fst st),
     last (map PkgName pkgs) (snd st)).
Proof.
  unfold inspectPackages, matchingDecls; revert st.
  induction pkgs as [|pkg rest IH]; intros [ms name]; [reflexivity|].
  cbn [fold_left flat_map map]. rewrite IH, inspectFiles_last.
  cbn [fst snd]. rewrite last_app_default. f_equal.
  destruct rest as [|next rest]; [reflexivity|].
  change (last (PkgName next :: map PkgName rest) (PkgName pkg)
          = last (PkgName next :: map PkgName rest) name).
  apply last_cons_default.
Qed.

(** [findInterface] on a load without errors. *)
Lemma findInterface_loaded (Load : string -> list Package * option string)
    (inputDir interfaceName : string) (pkgs : list Package) :
  Load inputDir = (pkgs, None) ->
  PrintErrors pkgs = 0 ->
  findInterface Load inputDir interfaceName
  = (last (matchingDecls interfaceName pkgs) [],
     last (map PkgName pkgs) "", None).
Proof.
  intros Hload Herr. unfold findInterface. rewrite Hload, Herr.
  cbn [Nat.ltb Nat.leb]. now rewrite inspectPackages_last.
Qed.

(** * The claims *)

(** C1 (as the code has it).  When the loaded packages hold two or more
    type declarations named [interfaceName] with an interface type,
    [findInterface] returns the method list of the last of them in
    traversal order: every match overwrites the previous one. *)
Theorem findInterface_last_match
    (Load : string -> list Package * option string)
    (inputDir interfaceName : string) (pkgs : list Package) :
  Load inputDir = (pkgs, None) ->
  PrintErrors pkgs = 0 ->
  2 <= List.length (matchingDecls interfaceName pkgs) ->
  findInterface Load inputDir interfaceName
  = (last (matchingDecls interfaceName pkgs) [],
     last (map PkgName pkgs) "", None).
Proof. intros Hload Herr _. now apply findInterface_loaded. Qed.

Lemma findInterface_last_match_witness :
  findInterface dupLoad "." "Thinger"
  = (last (matchingDecls "Thinger" [dupPackage]) [], "ref", None).
Proof.
  apply (@findInterface_last_match dupLoad "." "Thinger" [dupPackage]).
  - reflexivity.
  - reflexivity.
  - vm_compute. lia.
Defined.

(** C1 as stated fails: with a package-level [Thinger] and a second
    [Thinger] declared inside a function body, the method list returned is
    not that of the first declaration. *)
Lemma findInterface_first_match_counterexample :
  2 <= List.length (matchingDecls "Thinger" [dupPackage])
  /\ hd [] (matchingDecls "Thinger" [dupPackage]) = outerThinger
  /\ fst (fst (findInterface dupLoad "." "Thinger")) = innerThinger
  /\ fst (fst (findInterface dupLoad "." "Thinger"))
     <> hd [] (matchingDecls "Thinger" [dupPackage]).
Proof.
  split; [vm_compute; lia|].
  split; [reflexivity|].
  split; [reflexivity|].
  vm_compute. discriminate.
Qed.

(** C2 (as the code has it).  An unnamed result field is named [Rn] with
    [n] the index of the field in the result field list, a field with
    several names counting once; the entry stands after the entries of the
    fields before it.  When no result declares a name the names are
    [R0, R1, ...] by entry position.  For results [(a, b int, int)] the
    names are [a, b, R1]. *)
Theorem getResultNames_field_index :
  (forall (pre post : list Field) (ty : Expr),
      nth_error (getResultNames (Some (pre ++ mkField [] ty :: post)%list))
                (List.length (getResultNames (Some pre)))
      = Some ("R" ++ itoa (List.length pre)))
  /\ (forall tys : list Expr,
         getResultNames (Some (map (mkField []) tys))
         = map (fun n => "R" ++ itoa n) (seq 0 (List.length tys)))
  /\ getResultNames (Some mixedResults) = ["a"; "b"; "R1"].
Proof.
  split; [|split; [|reflexivity]].
  - intros pre post ty. unfold getResultNames.
    rewrite getResultNames_loop_app, getResultNames_loop_cons.
    rewrite nth_error_app2 by lia. now rewrite Nat.sub_diag.
  - intros tys. unfold getResultNames. generalize 0 as i.
    induction tys as [|ty tys IH]; intros i; [reflexivity|].
    cbn [map List.length seq]. rewrite getResultNames_loop_cons, IH.
    reflexivity.
Qed.

(** C2 as stated fails: for results [(a, b int, int)] the unnamed result is
    the entry at position 2, and its name is [R1], not [R2]. *)
Lemma getResultNames_entry_position_counterexample :
  nth_error (getResultNames (Some mixedResults)) 2 = Some "R1"
  /\ getResultNames (Some mixedResults) <> ["a"; "b"; "R2"].
Proof. split; [reflexivity|]. vm_compute. discriminate. Qed.

(** C3.  Every record the method loop of [generateStubCode] builds has as
    many parameter declarations as parameter names and as many result
    declarations as result names. *)
Theorem methodData_lengths (methods : list Field) (mds : list methodData) :
  collectMethods methods [] = Return mds ->
  Forall (fun md =>
            List.length (Params md) = List.length (ParamNames md)
            /\ List.length (Results md) = List.length (ResultNames md)) mds.
Proof.
  apply collectMethods_Forall; [|constructor].
  intros md (fParams & fResults & Hp & Hpn & Hr & Hrn).
  rewrite Hp, Hpn, Hr, Hrn. split.
  - apply getFieldList_getFieldNames_length.
  - apply getFieldList_getResultNames_length.
Qed.

Lemma methodData_lengths_witness :
  Forall (fun md =>
            List.length (Params md) = List.length (ParamNames md)
            /\ List.length (Results md) = List.length (ResultNames md))
         thingerData.
Proof. apply (@methodData_lengths thingerMethods thingerData). reflexivity. Defined.

(** C4.  A field with [k >= 1] names contributes [k] entries, one per name
    in order, each declaration carrying the same printed type; a field
    without names contributes one entry, named [_] among parameter names
    (and [Rn] among result names).  The entries stand between those of the
    fields before and after. *)
Theorem field_fan_out (pre post : list Field) (ty : Expr) :
  (forall (name : string) (names : list string),
      let field := mkField (name :: names) ty in
      getFieldList (Some (pre ++ field :: post)%list)
      = (getFieldList (Some pre)
           ++ map (fun n => (n ++ " " ++ getTypeString ty)%string)
                  (name :: names)
           ++ getFieldList (Some post))%list
      /\ getFieldNames (Some (pre ++ field :: post)%list)
         = (getFieldNames (Some pre) ++ (name :: names)
              ++ getFieldNames (Some post))%list
      /\ getResultNames (Some (pre ++ field :: post)%list)
         = (getResultNames (Some pre) ++ (name :: names)
              ++ getResultNames_loop (S (List.length pre)) post [])%list)
  /\ (let field := mkField [] ty in
      getFieldList (Some (pre ++ field :: post)%list)
      = (getFieldList (Some pre) ++ [getTypeString ty]
           ++ getFieldList (Some post))%list
      /\ getFieldNames (Some (pre ++ field :: post)%list)
         = (getFieldNames (Some pre) ++ ["_"]
              ++ getFieldNames (Some post))%list
      /\ getResultNames (Some (pre ++ field :: post)%list)
         = (getResultNames (Some pre)
              ++ [("R" ++ itoa (List.length pre))%string]
              ++ getResultNames_loop (S (List.length pre)) post [])%list).
Proof.
  split; [intros name names|]; intros field; subst field;
    rewrite getFieldList_app, getFieldNames_app, getFieldList_cons,
      getFieldNames_cons;
    unfold getResultNames;
    rewrite getResultNames_loop_app, getResultNames_loop_cons;
    repeat split; reflexivity.
Qed.

(** C5.  When every named method field has a function type, the method
    loop returns, and the names of its records are the names of the
    directly declared methods, one record per method, in declaration
    order; embedded entries contribute nothing. *)
Theorem collectMethods_declared_methods (methods : list Field) :
  forallb methodField methods = true ->
  exists mds,
    collectMethods methods [] = Return mds
    /\ map Name mds = flat_map declaredName methods.
Proof.
  intros Hok. destruct (@collectMethods_names methods Hok []) as [mds [Hrun Hnames]].
  exists mds. split; assumption.
Qed.

Lemma collectMethods_declared_methods_witness :
  exists mds,
    collectMethods (mkField [] (Ident "Stringer") :: thingerMethods) [] = Return mds
    /\ map Name mds = ["Thing"; "ThingWithParam"; "ThingWithParams"].
Proof.
  apply (@collectMethods_declared_methods
           (mkField [] (Ident "Stringer") :: thingerMethods)).
  reflexivity.
Defined.

(** C6.  When the load has no error and no type declaration named
    [interfaceName] has an interface type, [findInterface] returns an empty
    method list and a nil error, whether or not a type of that name
    exists. *)
Theorem findInterface_no_match
    (Load : string -> list Package * option string)
    (inputDir interfaceName : string) (pkgs : list Package) :
  Load inputDir = (pkgs, None) ->
  PrintErrors pkgs = 0 ->
  matchingDecls interfaceName pkgs = [] ->
  findInterface Load inputDir interfaceName
  = ([], last (map PkgName pkgs) "", None).
Proof.
  intros Hload Herr Hnone.
  rewrite (findInterface_loaded Load inputDir interfaceName Hload Herr).
  now rewrite Hnone.
Qed.

Lemma findInterface_no_match_witness :
  findInterface structLoad "." "Thinger" = ([], "ref", None)
  /\ findInterface structLoad "." "Absent" = ([], "ref", None).
Proof.
  split.
  - apply (@findInterface_no_match structLoad "." "Thinger" [structPackage]);
      reflexivity.
  - apply (@findInterface_no_match structLoad "." "Absent" [structPackage]);
      reflexivity.
Defined.

(** C7.  [getTypeString] is a total structural recursion and prints: an
    identifier verbatim, a qualified name as [pkg.Type], a pointer as [*T],
    a slice as [[]T], a map as [map[K]V], an interface type as
    [interface{}], a function type as [func(params) results] with both
    lists printed by [getFieldList] and joined by a comma and a space, and
    any other node as the non-empty name of its Go type. *)
Theorem getTypeString_rules :
  (forall name, getTypeString (Ident name) = name)
  /\ (forall pkg name,
         getTypeString (SelectorExpr (Ident pkg) name) = pkg ++ "." ++ name)
  /\ (forall T, getTypeString (StarExpr T) = "*" ++ getTypeString T)
  /\ (forall T, getTypeString (ArrayType None T) = "[]" ++ getTypeString T)
  /\ (forall K V, getTypeString (MapType K V)
                  = "map[" ++ getTypeString K ++ "]" ++ getTypeString V)
  /\ getTypeString (InterfaceType []) = "interface{}"
  /\ (forall params results,
         getTypeString (FuncType params results)
         = "func(" ++ Join (getFieldList params) ", " ++ ") "
             ++ Join (getFieldList results) ", ")
  /\ (forall kind, getTypeString (OtherExpr kind) = goTypeName kind
                   /\ goTypeName kind <> "").
Proof.
  repeat split; try reflexivity.
  destruct kind; discriminate.
Qed.

(** C8.  Once the template has parsed, the method loop has returned and
    [Execute] has rendered [buf] without error: with formatting disabled
    [generateStubCode] returns [buf] itself and a nil error; with formatting
    enabled and [buf] failing to reparse it returns the empty string and the
    parse error, never [buf]. *)
Theorem generateStubCode_formatting
    (Sprintf2 : string -> string -> string -> string)
    (Template File : Type) (libs : GoLibs Template File)
    (interfaceName packageName : string) (methods : list Field)
    (tmpl : Template) (mds : list methodData) (buf : string) :
  ParseTemplate libs (mkFuncMap Join (zip Sprintf2) joinl) (stubTemplate libs)
  = inl tmpl ->
  collectMethods methods [] = Return mds ->
  Execute libs tmpl
    (mkTemplateData packageName interfaceName ("Stub" ++ interfaceName) mds)
  = (buf, None) ->
  generateStubCode Sprintf2 libs interfaceName methods packageName true
  = Return (buf, None)
  /\ (forall e,
         ParseFile libs buf = inr e ->
         generateStubCode Sprintf2 libs interfaceName methods packageName false
         = Return ("", Some ("error parsing generated code: " ++ e))).
Proof.
  intros Htmpl Hmds Hexec. unfold generateStubCode.
  rewrite Htmpl, Hmds, Hexec. split; [reflexivity|].
  intros e Hparse. cbn [negb]. now rewrite Hparse.
Qed.

Lemma generateStubCode_formatting_witness :
  generateStubCode sampleSprintf2 sampleLibs "Thinger" thingerMethods "ref" true
  = Return ("package ref; type StubThinger struct{", None)
  /\ generateStubCode sampleSprintf2 sampleLibs "Thinger" thingerMethods "ref" false
     = Return ("", Some "error parsing generated code: expected '}', found 'EOF'").
Proof.
  destruct (@generateStubCode_formatting sampleSprintf2 unit unit sampleLibs
              "Thinger" "ref" thingerMethods tt thingerData
              "package ref; type StubThinger struct{"
              eq_refl eq_refl eq_refl) as [Hraw Hfmt].
  split; [exact Hraw|].
  apply (Hfmt "expected '}', found 'EOF'"). reflexivity.
Defined.

(** C9.  Two invocations of [generateStubCode] on the same interface name,
    method list, package name and format flag, against libraries that
    answer alike in both, return the same text and the same error: the
    result depends on nothing but the arguments and what the libraries
    answer. *)
Theorem generateStubCode_deterministic
    (Sprintf2 : string -> string -> string -> string)
    (Template File : Type) (run1 run2 : GoLibs Template File)
    (interfaceName packageName : string) (methods : list Field)
    (disableFormatting : bool) :
  libsAgree run1 run2 ->
  generateStubCode Sprintf2 run1 interfaceName methods packageName disableFormatting
  = generateStubCode Sprintf2 run2 interfaceName methods packageName disableFormatting.
Proof.
  intros (Htext & Hparse & Hexec & Hfile & Hfmt). unfold generateStubCode.
  rewrite Htext, Hparse.
  destruct (ParseTemplate run2 _ _) as [tmpl|e]; [|reflexivity].
  destruct (collectMethods methods []) as [mds|msg]; [|reflexivity].
  rewrite Hexec.
  destruct (Execute run2 tmpl _) as [buf [e|]]; [reflexivity|].
  destruct disableFormatting; cbn [negb]; [reflexivity|].
  rewrite Hfile. destruct (ParseFile run2 buf) as [node|e]; [|reflexivity].
  now rewrite Hfmt.
Qed.

Lemma generateStubCode_deterministic_witness :
  generateStubCode sampleSprintf2 sampleLibs "Thinger" thingerMethods "ref" false
  = generateStubCode sampleSprintf2 sampleLibs' "Thinger" thingerMethods "ref" false.
Proof.
  apply (@generateStubCode_deterministic sampleSprintf2 unit unit
           sampleLibs sampleLibs' "Thinger" "ref" thingerMethods false).
  repeat split; intros; try reflexivity.
  destruct node; reflexivity.
Defined.

(** C10.  [zip] panics exactly when its two lists differ in length, and
    on every record of the method loop, pairing [Params] with [ParamNames]
    and [Results] with [ResultNames] returns, so rendering such a record
    never reaches the panic. *)
Theorem zip_panic_unreachable (Sprintf2 : string -> string -> string -> string) :
  (forall a b fmtStr,
      (exists msg, zip Sprintf2 a b fmtStr = Panic msg)
      <-> List.length a <> List.length b)
  /\ (forall methods mds,
         collectMethods methods [] = Return mds ->
         Forall (fun md =>
                   forall fmtStr,
                     (exists zipped,
                         zip Sprintf2 (Params md) (ParamNames md) fmtStr
                         = Return zipped)
                     /\ (exists zipped,
                            zip Sprintf2 (Results md) (ResultNames md) fmtStr
                            = Return zipped)) mds).
Proof.
  split.
  - intros a b fmtStr; split.
    + intros [msg Hpanic] Hlen.
      rewrite (zip_equal_length Sprintf2 fmtStr a b Hlen) in Hpanic.
      discriminate.
    + intros Hlen. exists "unequal length". now apply zip_unequal_length.
  - intros methods mds. apply collectMethods_Forall; [|constructor].
    intros md (fParams & fResults & Hp & Hpn & Hr & Hrn) fmtStr.
    rewrite Hp, Hpn, Hr, Hrn. split; eexists; apply zip_equal_length.
    + apply getFieldList_getFieldNames_length.
    + apply getFieldList_getResultNames_length.
Qed.

Lemma zip_panic_unreachable_witness :
  Forall (fun md =>
            forall fmtStr,
              (exists zipped,
                  zip sampleSprintf2 (Params md) (ParamNames md) fmtStr
                  = Return zipped)
              /\ (exists zipped,
                     zip sampleSprintf2 (Results md) (ResultNames md) fmtStr
                     = Return zipped)) thingerData.
Proof.
  apply (proj2 (zip_panic_unreachable sampleSprintf2) thingerMethods thingerData).
  reflexivity.
Defined.

(** * Further properties *)

(** ** Normalisation *)

Lemma itoa_inj (i j : nat) : itoa i = itoa j -> i = j.
Proof.
  unfold itoa; intros Heq.
  apply DecimalNat.Unsigned.to_uint_inj.
  assert (Hsome : Some (Nat.to_uint i) = Some (Nat.to_uint j))
    by now rewrite <- !NilEmpty.usu, Heq.
  now inversion Hsome.
Qed.

Lemma getResultNames_loop_unnamed (i : nat) (tys : list Expr) :
  getResultNames_loop i (map (mkField []) tys) []
  = map (fun n => "R" ++ itoa n) (seq i (List.length tys)).
Proof.
  revert i; induction tys as [|ty tys IH]; intros i; [reflexivity|].
  cbn [map List.length seq]. now rewrite getResultNames_loop_cons, IH.
Qed.

(** X1.  When no field of a list declares a name, [getFieldList] is the
    printed types in order and [getFieldNames] is one [_] per field. *)
Theorem unnamed_fields_normalised (tys : list Expr) :
  getFieldList (Some (map (mkField []) tys)) = map getTypeString tys
  /\ getFieldNames (Some (map (mkField []) tys))
     = repeat "_" (List.length tys).
Proof.
  induction tys as [|ty tys [IHl IHn]]; [now split|].
  cbn [map List.length repeat].
  rewrite getFieldList_cons, getFieldNames_cons. unfold Field.
  rewrite IHl, IHn. now split.
Qed.

(** X2.  When every field of a list declares a name, [getFieldNames] and
    [getResultNames] both return the declared names in order, no name is
    synthesised, and [getFieldList] returns one ["name type"] per name. *)
Theorem named_fields_normalised (l : list Field) :
  forallb named l = true ->
  getFieldNames (Some l) = flat_map (@Names Expr) l
  /\ getResultNames (Some l) = flat_map (@Names Expr) l
  /\ getFieldList (Some l)
     = flat_map (fun field =>
                   map (fun name => name ++ " " ++ getTypeString (Type_ field))
                       (Names field)) l.
Proof.
  intros Hnamed. unfold getResultNames. generalize 0 as i.
  induction l as [|field rest IH]; intros i; [now repeat split|].
  cbn [forallb] in Hnamed. apply andb_prop in Hnamed as [Hfield Hrest].
  destruct (IH Hrest (S i)) as (IHn & IHr & IHl).
  rewrite getFieldNames_cons, getResultNames_loop_cons, getFieldList_cons.
  rewrite IHn, IHr, IHl. cbn [flat_map].
  unfold named in Hfield.
  unfold getFieldNames_step, getResultNames_step, getFieldList_step.
  destruct (Names field) as [|name names]; [discriminate|].
  now repeat split.
Qed.

Lemma named_fields_normalised_witness :
  getFieldNames (Some [mkField ["a"; "b"] int_; mkField ["err"] error_])
  = ["a"; "b"; "err"]
  /\ getResultNames (Some [mkField ["a"; "b"] int_; mkField ["err"] error_])
     = ["a"; "b"; "err"]
  /\ getFieldList (Some [mkField ["a"; "b"] int_; mkField ["err"] error_])
     = ["a int"; "b int"; "err error"].
Proof.
  apply (@named_fields_normalised
           [mkField ["a"; "b"] int_; mkField ["err"] error_]).
  reflexivity.
Defined.

(** X3.  Each of the three normalised lists has one entry per declared
    name and one per field without names: its length is the sum over the
    fields of [max 1 (number of names)]. *)
Theorem normalised_entry_count (l : list Field) :
  List.length (getFieldList (Some l)) = list_sum (map entriesOf l)
  /\ List.length (getFieldNames (Some l)) = list_sum (map entriesOf l)
  /\ List.length (getResultNames (Some l)) = list_sum (map entriesOf l).
Proof.
  rewrite <- getFieldList_getFieldNames_length,
    <- getFieldList_getResultNames_length.
  assert (Hl : List.length (getFieldList (Some l)) = list_sum (map entriesOf l)).
  { induction l as [|field rest IH]; [reflexivity|].
    rewrite getFieldList_cons, length_app, IH.
    change (list_sum (map entriesOf (field :: rest)))
      with (entriesOf field + list_sum (map entriesOf rest)).
    f_equal. unfold getFieldList_step, entriesOf.
    destruct (Names field) as [|name names]; [reflexivity|].
    cbn [app]. rewrite length_map. cbn [List.length]. lia. }
  now repeat split.
Qed.

(** X4.  When no result declares a name, the synthesised names
    [R0, R1, ...] are pairwise distinct. *)
Theorem synthesised_result_names_distinct (tys : list Expr) :
  NoDup (getResultNames (Some (map (mkField []) tys))).
Proof.
  unfold getResultNames. rewrite getResultNames_loop_unnamed.
  apply Injective_map_NoDup; [|apply seq_NoDup].
  intros i j Heq. apply itoa_inj. now inversion Heq.
Qed.

(** ** The type printer *)

Lemma append_empty (s t : string) : s ++ t = "" -> s = "" /\ t = "".
Proof. destruct s; simpl; [now split|discriminate]. Qed.

(** X5.  [getTypeString] returns the empty string for the identifier with
    the empty name and for no other expression: a type is never printed as
    nothing. *)
Theorem getTypeString_empty (e : Expr) :
  getTypeString e = "" <-> e = Ident "".
Proof.
  split; [|now intros ->].
  destruct e as [name|X Sel|X|Len Elt|Key Value|methods|params results|kind];
    cbn [getTypeString]; intros Hempty; try discriminate.
  - now subst.
  - apply append_empty in Hempty as [_ Hdot]. discriminate.
  - now destruct kind.
Qed.

Lemma getFieldList_loop_erased (l : list Field) :
  Forall (fun field => getTypeString (eraseUnread (Type_ field))
                       = getTypeString (Type_ field)) l ->
  forall acc,
    getFieldList_loop getTypeString
      (map (fun field => mkField (Names field) (eraseUnread (Type_ field))) l)
      acc
    = getFieldList_loop getTypeString l acc.
Proof.
  induction 1 as [|field rest Hfield _ IH]; intros acc; [reflexivity|].
  cbn [map getFieldList_loop]. rewrite IH. f_equal.
  unfold getFieldList_step. cbn [Names Type_]. now rewrite Hfield.
Qed.

Lemma getFieldList_erased (fields : FieldList) :
  fieldsAll (fun e => getTypeString (eraseUnread e) = getTypeString e) fields ->
  getFieldList_with getTypeString
    (option_map
       (map (fun field => mkField (Names field) (eraseUnread (Type_ field))))
       fields)
  = getFieldList_with getTypeString fields.
Proof.
  destruct fields as [l|]; [|reflexivity]. intros Hall.
  cbn [option_map getFieldList_with]. now apply getFieldList_loop_erased.
Qed.

(** X6.  The printed type depends neither on array lengths nor on the
    methods of interface types, at any depth: an array [[N]T] prints as the
    slice [[]T] and every interface type as [interface{}]. *)
Theorem getTypeString_ignores_unread (e : Expr) :
  getTypeString (eraseUnread e) = getTypeString e.
Proof.
  induction e as [name|X Sel IH|X IH|Len Elt IH|Key Value IHk IHv|methods
                  |params results IHp IHr|kind] using Expr_fields_ind;
    try reflexivity.
  - cbn [eraseUnread getTypeString]. now rewrite IH.
  - cbn [eraseUnread getTypeString]. now rewrite IH.
  - cbn [eraseUnread getTypeString]. now rewrite IH.
  - cbn [eraseUnread getTypeString]. now rewrite IHk, IHv.
  - change (getTypeString (eraseUnread (FuncType params results)))
      with ("func("
              ++ Join (getFieldList_with getTypeString
                         (option_map
                            (map (fun field =>
                                    mkField (Names field)
                                            (eraseUnread (Type_ field))))
                            params)) ", "
              ++ ") "
              ++ Join (getFieldList_with getTypeString
                         (option_map
                            (map (fun field =>
                                    mkField (Names field)
                                            (eraseUnread (Type_ field))))
                            results)) ", ").
    now rewrite (getFieldList_erased params IHp), (getFieldList_erased results IHr).
Qed.

(** ** The method loop and [zip] *)

Lemma collectMethods_panics (methods : list Field) :
  forallb methodField methods = false ->
  forall acc, exists msg, collectMethods methods acc = Panic msg.
Proof.
  induction methods as [|method rest IH]; intros Hbad acc; [discriminate|].
  cbn [forallb] in Hbad. cbn [collectMethods].
  unfold methodField in Hbad at 1.
  destruct (Names method) as [|methodName others].
  - now apply IH.
  - destruct (Type_ method) as [| | | | | |fParams fResults|];
      try (eexists; reflexivity).
    now apply IH.
Qed.

Lemma collectMethods_records (methods : list Field) :
  forall acc mds,
    collectMethods methods acc = Return mds ->
    exists new,
      mds = (acc ++ new)%list /\ Forall2 recordOf (filter named methods) new.
Proof.
  induction methods as [|method rest IH]; intros acc mds Hrun;
    cbn [collectMethods] in Hrun.
  - inversion Hrun; subst. exists []. rewrite app_nil_r. now split.
  - cbn [filter]. unfold named at 1.
    destruct (Names method) as [|methodName others] eqn:Hnames;
      [now apply IH|].
    destruct (Type_ method) as [| | | | | |fParams fResults|] eqn:Hty;
      try discriminate.
    destruct (IH _ _ Hrun) as (new & Hmds & Hnew).
    eexists; split; [rewrite Hmds, <- app_assoc; reflexivity|].
    constructor; [|exact Hnew].
    now exists methodName, others, fParams, fResults.
Qed.

(** X7.  The method loop panics exactly when some field with a name has a
    type that is not a function type; fields without a name never make it
    panic. *)
Theorem collectMethods_panics_iff (methods : list Field) :
  (exists msg, collectMethods methods [] = Panic msg)
  <-> forallb methodField methods = false.
Proof.
  split.
  - intros [msg Hpanic].
    destruct (forallb methodField methods) eqn:Hok; [|reflexivity].
    destruct (@collectMethods_names methods Hok []) as (mds & Hrun & _).
    rewrite Hrun in Hpanic. discriminate.
  - intros Hbad. now apply collectMethods_panics.
Qed.

(** X8.  The records the method loop returns are, position by position,
    those of the fields with a name: each carries the first name of its
    field and the parameter and result lists normalised from that field's
    own function type.  An interface of embedded entries only gives no
    record. *)
Theorem collectMethods_record_of_each_method
    (methods : list Field) (mds : list methodData) :
  collectMethods methods [] = Return mds ->
  Forall2 recordOf (filter named methods) mds.
Proof.
  intros Hrun. destruct (collectMethods_records methods [] Hrun)
    as (new & Hmds & Hnew).
  now subst.
Qed.

Lemma collectMethods_record_of_each_method_witness :
  Forall2 recordOf
          (filter named (mkField [] (Ident "Stringer") :: thingerMethods))
          thingerData.
Proof.
  apply (@collectMethods_record_of_each_method
           (mkField [] (Ident "Stringer") :: thingerMethods) thingerData).
  reflexivity.
Defined.

Lemma nth_error_combine_map (A B C : Type) (f : A * B -> C)
    (a : list A) (b : list B) (i : nat) (x : A) (y : B) :
  nth_error a i = Some x ->
  nth_error b i = Some y ->
  nth_error (map f (combine a b)) i = Some (f (x, y)).
Proof.
  revert b i; induction a as [|x' a IH]; intros [|y' b] [|i] Ha Hb;
    try discriminate; cbn in *.
  - congruence.
  - now apply IH.
Qed.

(** X9.  On lists of equal length [zip] returns a list of that length
    whose entry at each index is the two entries at that index formatted
    with [fmtStr], in the order of the arguments. *)
Theorem zip_pairs_by_index (Sprintf2 : string -> string -> string -> string)
    (a b : list string) (fmtStr : string) :
  List.length a = List.length b ->
  exists zipped,
    zip Sprintf2 a b fmtStr = Return zipped
    /\ List.length zipped = List.length a
    /\ forall i x y,
         nth_error a i = Some x ->
         nth_error b i = Some y ->
         nth_error zipped i = Some (Sprintf2 fmtStr x y).
Proof.
  intros Hlen. eexists. split; [now apply zip_equal_length|]. split.
  - rewrite length_map, length_combine. lia.
  - intros i x y Ha Hb.
    now rewrite (nth_error_combine_map
                   (fun xy => Sprintf2 fmtStr (fst xy) (snd xy)) a b i Ha Hb).
Qed.

Lemma zip_pairs_by_index_witness :
  exists zipped,
    zip sampleSprintf2 ["a int"; "b string"] ["a"; "b"] "%s %s" = Return zipped
    /\ List.length zipped = 2
    /\ forall i x y,
         nth_error ["a int"; "b string"] i = Some x ->
         nth_error ["a"; "b"] i = Some y ->
         nth_error zipped i = Some (sampleSprintf2 "%s %s" x y).
Proof.
  apply (@zip_pairs_by_index sampleSprintf2
           ["a int"; "b string"] ["a"; "b"] "%s %s").
  reflexivity.
Defined.

(** ** [generateStubCode] *)

(** X10.  Whenever [generateStubCode] returns an error, the text it
    returns with it is empty: neither a partly rendered buffer nor
    unformatted or partly formatted text comes back beside an error. *)
Theorem generateStubCode_error_no_text
    (Sprintf2 : string -> string -> string -> string)
    (Template File : Type) (libs : GoLibs Template File)
    (interfaceName packageName : string) (methods : list Field)
    (disableFormatting : bool) (text e : string) :
  generateStubCode Sprintf2 libs interfaceName methods packageName
                   disableFormatting
  = Return (text, Some e) ->
  text = "".
Proof.
  unfold generateStubCode.
  destruct (ParseTemplate libs _ _) as [tmpl|e0]; [|discriminate].
  destruct (collectMethods methods []) as [mds|msg]; [|discriminate].
  destruct (Execute libs tmpl _) as [buf [e0|]]; [now inversion 1|].
  destruct disableFormatting; cbn [negb]; [discriminate|].
  destruct (ParseFile libs buf) as [node|e0]; [|now inversion 1].
  destruct (FormatNode libs node) as [formatted [e0|]];
    [now inversion 1|discriminate].
Qed.

(** X11.  With formatting enabled, [generateStubCode] returns [text] and
    no error exactly when the template parsed, the method loop returned,
    the template rendered some buffer without error, that buffer reparsed,
    and [text] is what the formatter wrote for the reparsed file. *)
Theorem generateStubCode_formatted_success
    (Sprintf2 : string -> string -> string -> string)
    (Template File : Type) (libs : GoLibs Template File)
    (interfaceName packageName : string) (methods : list Field)
    (text : string) :
  generateStubCode Sprintf2 libs interfaceName methods packageName false
  = Return (text, None)
  <-> exists tmpl mds buf node,
        ParseTemplate libs (mkFuncMap Join (zip Sprintf2) joinl)
          (stubTemplate libs) = inl tmpl
        /\ collectMethods methods [] = Return mds
        /\ Execute libs tmpl
          (mkTemplateData packageName interfaceName
                        ("Stub" ++ interfaceName) mds) = (buf, None)
        /\ ParseFile libs buf = inl node
        /\ FormatNode libs node = (text, None).
Proof.
  unfold generateStubCode. split.
  - destruct (ParseTemplate libs _ _) as [tmpl|e0]; [|discriminate].
    destruct (collectMethods methods []) as [mds|msg]; [|discriminate].
    destruct (Execute libs tmpl _) as [buf [e0|]] eqn:Hexec; [discriminate|].
    cbn [negb].
    destruct (ParseFile libs buf) as [node|e0] eqn:Hparse; [|discriminate].
    destruct (FormatNode libs node) as [formatted [e0|]] eqn:Hfmt;
      [discriminate|].
    intros Hret; inversion Hret; subst.
    now exists tmpl, mds, buf, node.
  - intros (tmpl & mds & buf & node & Htmpl & Hmds & Hexec & Hparse & Hfmt).
    rewrite Htmpl, Hmds, Hexec. cbn [negb]. now rewrite Hparse, Hfmt.
Qed.

(** X12.  A failure of a later stage is reported whatever was written
    before it: when [Execute] fails the result is the error
    ["error generating stub: ..."] under either value of the flag, and when
    the formatter fails on the reparsed file it is
    ["error formatting generated code: ..."]; the buffer is dropped in both
    cases. *)
Theorem generateStubCode_stage_errors
    (Sprintf2 : string -> string -> string -> string)
    (Template File : Type) (libs : GoLibs Template File)
    (interfaceName packageName : string) (methods : list Field)
    (tmpl : Template) (mds : list methodData) (buf e : string) :
  ParseTemplate libs (mkFuncMap Join (zip Sprintf2) joinl)
          (stubTemplate libs) = inl tmpl ->
  collectMethods methods [] = Return mds ->
  (Execute libs tmpl
          (mkTemplateData packageName interfaceName
                        ("Stub" ++ interfaceName) mds) = (buf, Some e) ->
   forall disableFormatting,
     generateStubCode Sprintf2 libs interfaceName methods packageName
                      disableFormatting
     = Return ("", Some ("error generating stub: " ++ e)))
  /\ (forall node partial,
         Execute libs tmpl
          (mkTemplateData packageName interfaceName
                        ("Stub" ++ interfaceName) mds) = (buf, None) ->
         ParseFile libs buf = inl node ->
         FormatNode libs node = (partial, Some e) ->
         generateStubCode Sprintf2 libs interfaceName methods packageName false
         = Return ("", Some ("error formatting generated code: " ++ e))).
Proof.
  intros Htmpl Hmds.
  unfold generateStubCode. rewrite Htmpl, Hmds. split.
  - intros Hexec disableFormatting. now rewrite Hexec.
  - intros node partial Hexec Hparse Hfmt.
    rewrite Hexec. cbn [negb]. now rewrite Hparse, Hfmt.
Qed.

(** X13.  [generateStubCode] panics exactly when the embedded template
    does not parse or a named method field has a type that is not a
    function type; no failure of rendering, reparsing or formatting makes
    it panic. *)
Theorem generateStubCode_panics_iff
    (Sprintf2 : string -> string -> string -> string)
    (Template File : Type) (libs : GoLibs Template File)
    (interfaceName packageName : string) (methods : list Field)
    (disableFormatting : bool) :
  (exists msg,
      generateStubCode Sprintf2 libs interfaceName methods packageName
                       disableFormatting = Panic msg)
  <-> (exists e, ParseTemplate libs (mkFuncMap Join (zip Sprintf2) joinl)
          (stubTemplate libs) = inr e)
      \/ forallb methodField methods = false.
Proof.
  unfold generateStubCode. split.
  - intros [msg Hpanic].
    destruct (ParseTemplate libs _ _) as [tmpl|e0]; [|left; now exists e0].
    right.
    destruct (forallb methodField methods) eqn:Hok; [|reflexivity].
    destruct (@collectMethods_names methods Hok []) as (mds & Hrun & _).
    rewrite Hrun in Hpanic.
    destruct (Execute libs tmpl _) as [buf [e0|]]; [discriminate|].
    destruct disableFormatting; cbn [negb] in Hpanic; [discriminate|].
    destruct (ParseFile libs buf) as [node|e0]; [|discriminate].
    destruct (FormatNode libs node) as [formatted [e0|]]; discriminate.
  - intros [[e0 Htmpl]|Hbad].
    + rewrite Htmpl. now exists e0.
    + destruct (ParseTemplate libs _ _) as [tmpl|e0]; [|now exists e0].
      destruct (collectMethods_panics methods Hbad []) as [msg Hpanic].
      rewrite Hpanic. now exists msg.
Qed.

Lemma generateStubCode_error_no_text_witness :
  generateStubCode sampleSprintf2 renderFailLibs "Thinger" thingerMethods
                   "ref" true
  = Return ("", Some "error generating stub: template: stub: no such field")
  /\ "" = "".
Proof.
  split; [reflexivity|].
  apply (@generateStubCode_error_no_text sampleSprintf2 unit unit
           renderFailLibs "Thinger" "ref" thingerMethods true ""
           "error generating stub: template: stub: no such field").
  reflexivity.
Defined.

Lemma generateStubCode_stage_errors_witness :
  generateStubCode sampleSprintf2 renderFailLibs "Thinger" thingerMethods
                   "ref" true
  = Return ("", Some "error generating stub: template: stub: no such field")
  /\ generateStubCode sampleSprintf2 renderFailLibs "Thinger" thingerMethods
                      "ref" false
     = Return ("", Some "error generating stub: template: stub: no such field").
Proof.
  split;
    apply (proj1 (@generateStubCode_stage_errors sampleSprintf2 unit unit
                    renderFailLibs "Thinger" "ref" thingerMethods tt
                    thingerData "package ref" "template: stub: no such field"
                    eq_refl eq_refl));
    reflexivity.
Defined.

(** ** [findInterface] *)

Lemma subnodes_unfold (n : Node) :
  subnodes n = n :: flat_map subnodes (nodeChildren n).
Proof. destruct n; reflexivity. Qed.

Lemma declsOfNode_subnodes (interfaceName : string) (n : Node) :
  declsOfNode interfaceName n
  = flat_map (matchingDecl interfaceName) (subnodes n).
Proof.
  induction n as [name ty children IH|children IH] using Node_children_ind;
    rewrite declsOfNode_unfold, subnodes_unfold; cbn [flat_map nodeChildren];
    f_equal;
    (induction IH as [|c rest Hc _ IHrest]; [reflexivity|];
     cbn [flat_map]; now rewrite flat_map_app, Hc, IHrest).
Qed.

Lemma in_matchingDecl (interfaceName : string) (n : Node) (ms : list Field) :
  In ms (matchingDecl interfaceName n)
  <-> exists children, n = TypeSpec interfaceName (InterfaceType ms) children.
Proof.
  split.
  - destruct n as [name ty children|children]; [|contradiction].
    destruct ty; try contradiction. cbn [matchingDecl].
    destruct (String.eqb name interfaceName) eqn:Hname; [|contradiction].
    apply String.eqb_eq in Hname. intros [<-|[]]. subst. now exists children.
  - intros [children ->]. cbn [matchingDecl]. rewrite String.eqb_refl.
    now left.
Qed.

Lemma in_matchingDecls (interfaceName : string) (pkgs : list Package)
    (ms : list Field) :
  In ms (matchingDecls interfaceName pkgs)
  <-> exists pkg file children,
        In pkg pkgs /\ In file (Syntax pkg)
        /\ In (TypeSpec interfaceName (InterfaceType ms) children)
              (subnodes file).
Proof.
  unfold matchingDecls. rewrite in_flat_map. split.
  - intros (pkg & Hpkg & Hin). apply in_flat_map in Hin as (file & Hfile & Hin).
    rewrite declsOfNode_subnodes in Hin.
    apply in_flat_map in Hin as (n & Hn & Hin).
    apply in_matchingDecl in Hin as [children ->].
    now exists pkg, file, children.
  - intros (pkg & file & children & Hpkg & Hfile & Hn).
    exists pkg; split; [assumption|]. apply in_flat_map.
    exists file; split; [assumption|]. rewrite declsOfNode_subnodes.
    apply in_flat_map. eexists; split; [exact Hn|].
    apply in_matchingDecl. now exists children.
Qed.

Lemma last_In (A : Type) (l : list A) (x d : A) : In (last (x :: l) d) (x :: l).
Proof.
  revert x; induction l as [|y l IH]; intros x; [now left|].
  right. apply IH.
Qed.

(** X14.  On a load without errors, the method list [findInterface]
    returns is that of a type declaration named [interfaceName] with an
    interface type that the walk reaches in some file of some package, or
    else no file of any package holds such a declaration and the list is
    empty. *)
Theorem findInterface_returns_a_declaration
    (Load : string -> list Package * option string)
    (inputDir interfaceName : string) (pkgs : list Package) :
  Load inputDir = (pkgs, None) ->
  PrintErrors pkgs = 0 ->
  (exists pkg file children,
      In pkg pkgs /\ In file (Syntax pkg)
      /\ In (TypeSpec interfaceName
                      (InterfaceType
                         (fst (fst (findInterface Load inputDir interfaceName))))
                      children)
            (subnodes file))
  \/ (fst (fst (findInterface Load inputDir interfaceName)) = []
      /\ forall pkg file ms children,
           In pkg pkgs -> In file (Syntax pkg) ->
           ~ In (TypeSpec interfaceName (InterfaceType ms) children)
                (subnodes file)).
Proof.
  intros Hload Herr.
  rewrite (findInterface_loaded Load inputDir interfaceName Hload Herr).
  cbn [fst].
  destruct (matchingDecls interfaceName pkgs) as [|ms rest] eqn:Hdecls.
  - right. split; [reflexivity|].
    intros pkg file ms children Hpkg Hfile Hn.
    assert (Hin : In ms (matchingDecls interfaceName pkgs))
      by (apply in_matchingDecls; now exists pkg, file, children).
    now rewrite Hdecls in Hin.
  - left. apply in_matchingDecls. rewrite Hdecls. apply last_In.
Qed.

Lemma findInterface_returns_a_declaration_witness :
  exists pkg file children,
    In pkg [dupPackage] /\ In file (Syntax pkg)
    /\ In (TypeSpec "Thinger" (InterfaceType innerThinger) children)
          (subnodes file).
Proof.
  destruct (@findInterface_returns_a_declaration dupLoad "." "Thinger"
              [dupPackage] eq_refl eq_refl) as [Hfound|[Hempty _]].
  - exact Hfound.
  - discriminate Hempty.
Defined.

(** X15.  [findInterface] returns an error exactly when the load failed
    or [PrintErrors] counted an error; the method list and the package
    name are then empty, and a failed load is reported as ["load: ..."]
    whatever the packages hold. *)
Theorem findInterface_error_iff
    (Load : string -> list Package * option string)
    (inputDir interfaceName : string) :
  (snd (findInterface Load inputDir interfaceName) <> None
   <-> snd (Load inputDir) <> None
       \/ PrintErrors (fst (Load inputDir)) <> 0)
  /\ (snd (findInterface Load inputDir interfaceName) <> None ->
      fst (findInterface Load inputDir interfaceName) = ([], ""))
  /\ (forall e,
         snd (Load inputDir) = Some e ->
         findInterface Load inputDir interfaceName = ([], "", Some ("load: " ++ e))).
Proof.
  unfold findInterface.
  destruct (Load inputDir) as [pkgs [e|]]; cbn [fst snd].
  - repeat split; try discriminate; [now left|].
    intros e' He'; now inversion He'.
  - destruct (PrintErrors pkgs) as [|n] eqn:Herr; cbn [Nat.ltb Nat.leb].
    + destruct (inspectPackages interfaceName pkgs ([], "")) as [ms name].
      cbn [fst snd]. repeat split; try discriminate; try congruence.
      intros [H|H]; congruence.
    + cbn [fst snd]. repeat split; try discriminate. now right.
Qed.

Lemma findInterface_error_iff_witness :
  findInterface (fun _ => ([dupPackage], Some "no Go files in .")) "." "Thinger"
  = ([], "", Some "load: no Go files in .").
Proof.
  apply (proj2 (proj2 (@findInterface_error_iff
                         (fun _ => ([dupPackage], Some "no Go files in ."))
                         "." "Thinger"))).
  reflexivity.
Defined.

(** ** [main] *)

Section MainFacts.
Variable Load : string -> list Package * option string.
Variable PrintErrorsText : list Package -> string.
Variable Sprintf2 : string -> string -> string -> string.
Variables Template File : Type.
Variable libs : GoLibs Template File.
Variable MarshalIndent : list methodData -> string.
Variable WriteFileErr : string -> string -> option string.

Lemma findInterface_events_stderr (inputDir : string) (ev : Event) :
  In ev (findInterface_events Load PrintErrorsText inputDir) ->
  exists text, ev = Stderr text.
Proof.
  unfold findInterface_events.
  destruct (Load inputDir) as [pkgs [e|]]; [contradiction|].
  intros [<-|[]]. now eexists.
Qed.

Lemma generateStubCode_events_stdout (methods : list Field) (ev : Event) :
  In ev (generateStubCode_events Sprintf2 libs MarshalIndent methods) ->
  exists text, ev = Stdout text.
Proof.
  unfold generateStubCode_events.
  destruct (ParseTemplate libs _ _) as [tmpl|e]; [|contradiction].
  destruct (collectMethods methods []) as [mds|msg]; [|contradiction].
  intros [<-|[]]. now eexists.
Qed.
End MainFacts.

(** X16.  Unless exactly two arguments follow the flags, [main] writes
    the usage line to standard error and exits with status 1; it loads
    nothing, prints nothing else and writes no file. *)
Theorem main_usage
    (Load : string -> list Package * option string)
    (PrintErrorsText : list Package -> string)
    (Sprintf2 : string -> string -> string -> string)
    (Template File : Type) (libs : GoLibs Template File)
    (MarshalIndent : list methodData -> string)
    (WriteFileErr : string -> string -> option string) (fl : Flags) :
  List.length (Args fl) <> 2 ->
  main Load PrintErrorsText Sprintf2 libs MarshalIndent WriteFileErr fl
  = [Stderr ("Usage: " ++ Arg0 fl
               ++ " [-no-fmt] -o <output.go> <input_directory> <interface>"
               ++ nl);
     Exit 1].
Proof.
  intros Hn. unfold main.
  destruct (Args fl) as [|a [|b [|c rest]]]; try reflexivity.
  now contradiction Hn.
Qed.

Lemma main_usage_witness :
  main dupLoad samplePrintErrorsText sampleSprintf2 sampleLibs
       sampleMarshalIndent sampleWriteFileErr
       (mkFlags "stub.go" false ["."] "stubz")
  = [Stderr ("Usage: stubz [-no-fmt] -o <output.go> <input_directory> <interface>"
               ++ nl);
     Exit 1].
Proof.
  apply (@main_usage dupLoad samplePrintErrorsText sampleSprintf2 unit unit
           sampleLibs sampleMarshalIndent sampleWriteFileErr
           (mkFlags "stub.go" false ["."] "stubz")).
  cbn. lia.
Defined.

(** X17.  [main] calls [os.WriteFile] only after every stage has
    succeeded: the name is the non-empty [-o] argument, the mode is 0644,
    and the data is exactly the text [generateStubCode] returned without
    error for the non-empty method list [findInterface] returned without
    error. *)
Theorem main_writes_only_generated_stub
    (Load : string -> list Package * option string)
    (PrintErrorsText : list Package -> string)
    (Sprintf2 : string -> string -> string -> string)
    (Template File : Type) (libs : GoLibs Template File)
    (MarshalIndent : list methodData -> string)
    (WriteFileErr : string -> string -> option string) (fl : Flags)
    (name data : string) (perm : nat) :
  In (WriteFile name data perm)
     (main Load PrintErrorsText Sprintf2 libs MarshalIndent WriteFileErr fl) ->
  name = outputFile fl /\ name <> "" /\ perm = 420
  /\ exists inputDir interfaceName interfaceMethods packageName,
       Args fl = [inputDir; interfaceName]
       /\ findInterface Load inputDir interfaceName
          = (interfaceMethods, packageName, None)
       /\ interfaceMethods <> []
       /\ generateStubCode Sprintf2 libs interfaceName interfaceMethods
                           packageName (disableFormatting fl)
          = Return (data, None).
Proof.
  unfold main.
  destruct (Args fl) as [|inputDir [|interfaceName [|c rest]]];
    try (intros [H|[H|[]]]; discriminate).
  destruct (findInterface Load inputDir interfaceName)
    as [[interfaceMethods packageName] [e|]] eqn:Hfind.
  - intros Hin. apply in_app_or in Hin as [Hin|[H|[H|[]]]]; try discriminate.
    apply findInterface_events_stderr in Hin as [text Hev]. discriminate.
  - intros Hin. apply in_app_or in Hin as [Hin|Hin].
    { apply findInterface_events_stderr in Hin as [text Hev]. discriminate. }
    destruct interfaceMethods as [|method methods];
      [destruct Hin as [H|[H|[]]]; discriminate|].
    cbn [List.length Nat.eqb] in Hin.
    apply in_app_or in Hin as [Hin|Hin].
    { apply generateStubCode_events_stdout in Hin as [text Hev]. discriminate. }
    destruct (generateStubCode Sprintf2 libs interfaceName (method :: methods)
                packageName (disableFormatting fl))
      as [[stubCode [e|]]|msg] eqn:Hgen.
    + destruct Hin as [H|[H|[]]]; discriminate.
    + destruct (String.eqb (outputFile fl) "") eqn:Hout.
      { destruct Hin as [H|[]]; discriminate. }
      apply String.eqb_neq in Hout.
      assert (Hw : WriteFile (outputFile fl) stubCode 420
                   = WriteFile name data perm).
      { destruct (WriteFileErr (outputFile fl) stubCode);
          [destruct Hin as [H|[H|[H|[]]]]|destruct Hin as [H|[H|[]]]];
          (exact H || discriminate). }
      inversion Hw; subst.
      repeat split; try assumption.
      exists inputDir, interfaceName, (method :: methods), packageName.
      repeat split; try assumption. discriminate.
    + destruct Hin as [H|[]]; discriminate.
Qed.

Lemma main_writes_only_generated_stub_witness :
  generateStubCode sampleSprintf2 sampleLibs "Thinger" innerThinger "ref" true
  = Return ("package ref; type StubThinger struct{", None).
Proof.
  destruct (@main_writes_only_generated_stub dupLoad samplePrintErrorsText
              sampleSprintf2 unit unit sampleLibs sampleMarshalIndent
              sampleWriteFileErr sampleFlags
              "stub.go" "package ref; type StubThinger struct{" 420)
    as (_ & _ & _ & inputDir & interfaceName & ms & pkg & Hargs & Hfind
        & _ & Hgen).
  - right. right. left. reflexivity.
  - inversion Hargs; subst. inversion Hfind; subst. exact Hgen.
Defined.

(** X18.  When the load has no error and the last matching declaration
    has no method, or there is no matching declaration at all, [main]
    reports ["Interface ... not found"] and exits with status 1 without
    generating anything: an interface declared with an empty body is
    reported like a missing one. *)
Theorem main_not_found
    (Load : string -> list Package * option string)
    (PrintErrorsText : list Package -> string)
    (Sprintf2 : string -> string -> string -> string)
    (Template File : Type) (libs : GoLibs Template File)
    (MarshalIndent : list methodData -> string)
    (WriteFileErr : string -> string -> option string) (fl : Flags)
    (inputDir interfaceName : string) (pkgs : list Package) :
  Args fl = [inputDir; interfaceName] ->
  Load inputDir = (pkgs, None) ->
  PrintErrors pkgs = 0 ->
  last (matchingDecls interfaceName pkgs) [] = [] ->
  main Load PrintErrorsText Sprintf2 libs MarshalIndent WriteFileErr fl
  = [Stderr (PrintErrorsText pkgs);
     Stderr ("Interface " ++ interfaceName ++ " not found" ++ nl);
     Exit 1].
Proof.
  intros Hargs Hload Herr Hlast. unfold main. rewrite Hargs.
  rewrite (findInterface_loaded Load inputDir interfaceName Hload Herr), Hlast.
  unfold findInterface_events. now rewrite Hload.
Qed.

Lemma main_not_found_witness :
  main emptyInterfaceLoad samplePrintErrorsText sampleSprintf2 sampleLibs
       sampleMarshalIndent sampleWriteFileErr sampleFlags
  = [Stderr ""; Stderr ("Interface Thinger not found" ++ nl); Exit 1].
Proof.
  apply (@main_not_found emptyInterfaceLoad samplePrintErrorsText
           sampleSprintf2 unit unit sampleLibs sampleMarshalIndent
           sampleWriteFileErr sampleFlags "." "Thinger"
           [emptyInterfacePackage]);
    reflexivity.
Defined.

(** ** Embedded entries *)

Lemma collectMethods_filter_named (methods : list Field) :
  forall acc,
    collectMethods methods acc = collectMethods (filter named methods) acc.
Proof.
  induction methods as [|method rest IH]; intros acc; [reflexivity|].
  cbn [filter]. unfold named at 1. cbn [collectMethods].
  destruct (Names method) as [|methodName others] eqn:Hnames; [apply IH|].
  cbn [collectMethods]. rewrite Hnames.
  destruct (Type_ method); try reflexivity. apply IH.
Qed.

(** X19.  [generateStubCode] does not look at method fields without a
    name: its result on a method list is its result on the named fields
    alone, so an interface that embeds others is rendered as if it did
    not, and one that only embeds others as one with no method. *)
Theorem generateStubCode_ignores_embedded
    (Sprintf2 : string -> string -> string -> string)
    (Template File : Type) (libs : GoLibs Template File)
    (interfaceName packageName : string) (methods : list Field)
    (disableFormatting : bool) :
  generateStubCode Sprintf2 libs interfaceName methods packageName
                   disableFormatting
  = generateStubCode Sprintf2 libs interfaceName (filter named methods)
                     packageName disableFormatting.
Proof.
  unfold generateStubCode. now rewrite (collectMethods_filter_named methods []).
Qed.
